(** * pycarmd: a shallow embedding of [pycarmd/api.py]

    The module is a thin client over an HTTP API: a request decorator
    ([CarmdAuth]) that writes two credential headers, and a client
    ([CarmdApi]) whose methods shape query parameters and hand them to
    [requests.get].  Python values are embedded as [pyval], dictionaries as
    finite maps keyed by strings, and the effects of the module (reading the
    process environment, allocating the client object, calling the HTTP
    layer, raising) as a state-and-exception monad over [world]. *)

From Stdlib Require Import ZArith String Ascii List.
From stdpp Require Import base option list gmap strings pretty.

Local Open Scope string_scope.
Local Open Scope list_scope.
Local Open Scope Z_scope.

(** ** Python values *)

Inductive pyval : Type :=
  | VNone
  | VBool (b : bool)
  | VInt (n : Z)
  | VStr (s : string).

(** [x is None] *)
Definition is_None (v : pyval) : bool :=
  match v with VNone => true | _ => false end.

(** [bool(x)]: the truth value Python's [all] tests. *)
Definition truthy (v : pyval) : bool :=
  match v with
  | VNone => false
  | VBool b => b
  | VInt n => negb (n =? 0)
  | VStr s => negb (String.eqb s EmptyString)
  end.

(** [all(xs)] *)
Definition py_all (xs : list pyval) : bool := forallb truthy xs.

(** [str(x)] *)
Definition py_str (v : pyval) : string :=
  match v with
  | VNone => "None"
  | VBool true => "True"
  | VBool false => "False"
  | VInt n => pretty n
  | VStr s => s
  end.

(** ** Exceptions and the effect monad *)

Inductive exn : Type :=
  | KeyError (msg : string)
  | TypeError (msg : string)
  | AttributeError (msg : string)
  | OtherError (kind msg : string).   (* anything else the HTTP layer raises *)

Inductive result (A : Type) : Type :=
  | Ok (a : A)
  | Raise (e : exn).
Arguments Ok {A} a.
Arguments Raise {A} e.

(** ** [CarmdAuth] *)

(** [str.lower()].  A [string] stands for a Python [str] whose characters
    have code points below 256; on those, lower-casing moves A-Z and the
    accented capitals 192-222 (215, the multiplication sign, apart) up by
    32 and leaves every other character alone. *)
Definition lower_char (c : ascii) : ascii :=
  let n := nat_of_ascii c in
  if ((65 <=? n) && (n <=? 90) ||
      (192 <=? n) && (n <=? 222) && negb (n =? 215))%nat
  then ascii_of_nat (n + 32) else c.

Fixpoint lower (s : string) : string :=
  match s with
  | EmptyString => EmptyString
  | String c s => String (lower_char c) (lower s)
  end.

(** The header mapping of a request is a [requests.structures]
    [CaseInsensitiveDict]: entries are kept under the lower-cased name,
    together with the name as it was last written. *)
Module CaseInsensitiveDict.

Record t : Type := mk { _store : gmap string (string * pyval) }.

(** [self._store[key.lower()] = (key, value)] *)
Definition __setitem__ (self : t) (key : string) (value : pyval) : t :=
  mk (<[lower key := (key, value)]> (_store self)).

(** [self._store[key.lower()][1]], [None] standing for a missing key. *)
Definition get (self : t) (key : string) : option pyval :=
  snd <$> (_store self !! lower key).


(** The lower-cased names present (the keys of [lower_items]). *)
Definition lower_keys (self : t) : gset string := dom (_store self).

End CaseInsensitiveDict.

#[global] Instance cid_lookup : Lookup string pyval CaseInsensitiveDict.t :=
  λ key self, CaseInsensitiveDict.get self key.


#[global] Instance cid_dom : Dom CaseInsensitiveDict.t (gset string) :=
  CaseInsensitiveDict.lower_keys.

(** The part of a [requests] prepared request the decorator can see. *)
Record Request : Type := mkRequest {
  method : string;
  url : string;
  headers : CaseInsensitiveDict.t;
  body : option string;
}.

Module CarmdAuth.

Record t : Type := mk { key : pyval; secret : pyval }.

Definition __init__ (key secret : pyval) : t := mk key secret.

(** [r.headers['authorization'] = self.key;
    r.headers['partner-token'] = self.secret; return r] *)
Definition __call__ (self : t) (r : Request) : Request :=
  let r := mkRequest (method r) (url r)
             (CaseInsensitiveDict.__setitem__ (headers r)
                "authorization" (key self)) (body r) in
  let r := mkRequest (method r) (url r)
             (CaseInsensitiveDict.__setitem__ (headers r)
                "partner-token" (secret self)) (body r) in
  r.

End CarmdAuth.

(** ** The world the client runs in *)

(** What can be passed as a keyword option: a plain value or an auth object. *)
Inductive pyobj : Type :=
  | OVal (v : pyval)
  | OAuth (a : CarmdAuth.t).

(** One evaluation of [requests.get(url, params=params, **kwargs)]. *)
Record http_get : Type := mkGet {
  get_url : string;
  get_params : option (gmap string pyval);
  get_kwargs : gmap string pyobj;
}.

Record Response : Type := mkResponse {
  status_code : Z;
  content : string;
}.

(** The attributes [CarmdApi.__init__] stores on [self]. *)
Record CarmdApi_obj : Type := mkApi {
  _key : pyval;
  _secret : pyval;
  _auth : CarmdAuth.t;
}.

Definition ref : Type := positive.

(** [remote] is the HTTP layer with the network and the upstream behind it:
    given the calls it has received so far and a new call, it answers with
    a response or raises.  Nothing is assumed about it. *)
Record world : Type := mkWorld {
  environ : gmap string string;        (* os.environ *)
  objects : gmap ref CarmdApi_obj;     (* the client instances alive *)
  sent : list http_get;                (* calls received by the HTTP layer *)
  remote : list http_get → http_get → result Response;
}.

Definition M (A : Type) : Type := world → result A * world.

Definition ret {A} (a : A) : M A := λ w, (Ok a, w).

Definition raise {A} (e : exn) : M A := λ w, (Raise e, w).

Definition bind {A B} (c : M A) (k : A → M B) : M B :=
  λ w, match c w with
       | (Ok a, w') => k a w'
       | (Raise e, w') => (Raise e, w')
       end.

Declare Scope py_scope.
Delimit Scope py_scope with py.
Notation "x <- c ;; k" := (bind c (λ x, k))
  (at level 100, c at next level, right associativity) : py_scope.
Local Open Scope py_scope.

(** [os.environ.get(name, default)] *)
Definition os_environ_get (name : string) (default : pyval) : M pyval :=
  λ w, (Ok (from_option VStr default (environ w !! name)), w).

(** Allocation of a new instance with its attributes set. *)
Definition new_object (o : CarmdApi_obj) : M ref :=
  λ w, let l := fresh (dom (objects w)) in
       (Ok l, mkWorld (environ w) (<[l := o]> (objects w)) (sent w) (remote w)).

(** Attribute access on [self]; an object that was never initialised has
    no attributes. *)
Definition getattr (self : ref) : M CarmdApi_obj :=
  λ w, match objects w !! self with
       | Some o => (Ok o, w)
       | None => (Raise (AttributeError "'CarmdApi' object has no attribute"), w)
       end.

Definition url_error : string :=
  "get() got multiple values for argument 'url'".

(** [requests.get(url, params=params, **kwargs)], where [requests.get] is
    declared as [get(url, params=None, **kwargs)].  An option named [url]
    clashes with the positional argument: the call raises [TypeError] and
    the HTTP layer is never entered.  Otherwise the layer receives the call
    and its outcome, a response or an exception, is the outcome here. *)
Definition requests_get (u : string) (params : option (gmap string pyval))
    (kwargs : gmap string pyobj) : M Response :=
  λ w, match kwargs !! "url" with
       | Some _ => (Raise (TypeError url_error), w)
       | None =>
           let c := mkGet u params kwargs in
           (remote w (sent w) c,
            mkWorld (environ w) (objects w) (sent w ++ [c]) (remote w))
       end.

(** ** Module level *)

Definition CMD_BASE_URL : string := "http://api2.carmd.com/v2.0/".

(** The two globals computed when the module body runs. *)
Record globals : Type := mkGlobals {
  CMD_DEFAULT_KEY : pyval;
  CMD_DEFAULT_SECRET : pyval;
}.

(** Executing the module body:
    [CMD_DEFAULT_KEY = os.environ.get('CARMD_KEY', None)] and
    [CMD_DEFAULT_SECRET = os.environ.get('CARMD_SECRET', None)]. *)
Definition import_module : M globals :=
  k <- os_environ_get "CARMD_KEY" VNone ;;
  s <- os_environ_get "CARMD_SECRET" VNone ;;
  ret (mkGlobals k s).

(** ** [CarmdApi] *)

Module CarmdApi.

Definition init_error : string :=
  "This object must be initialized with a key and secret value. " +:+
  "Alternatively, 'CARMD_KEY' and 'CARMD_SECRET' values can " +:+
  "be stored/retrieved from the operating system environment.".

Definition __init__ (G : globals) (key secret : pyval) : M ref :=
  let key := if is_None key then CMD_DEFAULT_KEY G else key in
  let secret := if is_None secret then CMD_DEFAULT_SECRET G else secret in
  if negb (py_all [key; secret]) then raise (KeyError init_error)
  else new_object (mkApi key secret (CarmdAuth.__init__ key secret)).

(** [kwargs] holds the keyword options left once [service] and [params]
    are bound. *)
Definition get (self : ref) (service : string)
    (params : option (gmap string pyval)) (kwargs : gmap string pyobj)
    : M Response :=
  let url := CMD_BASE_URL +:+ service in
  o <- getattr self ;;
  let kwargs := <["auth" := OAuth (_auth o)]> kwargs in
  requests_get url params kwargs.

Definition get_decode (self : ref) (vin : pyval) : M Response :=
  get self "decode" (Some {[ "vin" := vin ]}) ∅.

Definition get_safety_recall (self : ref) (vehicle_id : pyval) : M Response :=
  get self "articles/safetyrecall" (Some {[ "vehicleID" := vehicle_id ]}) ∅.

Definition missing_error : string :=
  "Required paramater missing: " +:+ "vehicle_id, tag, or fleet_id".

Definition get_predicted_repair (self : ref) (vehicle_id tag fleet_id : pyval)
    : M Response :=
  params <- (if negb (is_None vehicle_id) then
               ret {[ "vehicleID" := vehicle_id ]}
             else if negb (is_None tag) then
               ret {[ "tag" := tag ]}
             else if negb (is_None fleet_id) then
               ret {[ "fleetID" := fleet_id ]}
             else raise (TypeError missing_error)) ;;
  get self "report/predicted" (Some params) ∅.

Definition get_warranty (self : ref) (vehicle_id : pyval) : M Response :=
  get self "articles/warranty" (Some {[ "vehicleID" := vehicle_id ]}) ∅.

Definition get_maintenance (self : ref) (vin mileage : pyval) : M Response :=
  get self "maint/next"
    (Some {[ "vin" := vin; "mileage" := VStr (py_str mileage) ]}) ∅.

Definition get_years (self : ref) (make : pyval) : M Response :=
  get self "decode" (Some {[ "make" := make ]}) ∅.

Definition get_makes (self : ref) : M Response :=
  get self "decode" None ∅.

Definition get_models (self : ref) (year make : pyval) : M Response :=
  get self "decode"
    (Some {[ "year" := VStr (py_str year); "make" := make ]}) ∅.

End CarmdApi.

(** ** Driving a client *)

(** One call on the public surface of [CarmdApi], with its arguments. *)
Inductive operation : Type :=
  | OpGet (service : string) (params : option (gmap string pyval))
          (kwargs : gmap string pyobj)
  | OpDecode (vin : pyval)
  | OpSafetyRecall (vehicle_id : pyval)
  | OpPredictedRepair (vehicle_id tag fleet_id : pyval)
  | OpWarranty (vehicle_id : pyval)
  | OpMaintenance (vin mileage : pyval)
  | OpYears (make : pyval)
  | OpMakes
  | OpModels (year make : pyval).

Definition invoke (self : ref) (op : operation) : M Response :=
  match op with
  | OpGet service params kwargs => CarmdApi.get self service params kwargs
  | OpDecode vin => CarmdApi.get_decode self vin
  | OpSafetyRecall v => CarmdApi.get_safety_recall self v
  | OpPredictedRepair v t f => CarmdApi.get_predicted_repair self v t f
  | OpWarranty v => CarmdApi.get_warranty self v
  | OpMaintenance vin mileage => CarmdApi.get_maintenance self vin mileage
  | OpYears make => CarmdApi.get_years self make
  | OpMakes => CarmdApi.get_makes self
  | OpModels year make => CarmdApi.get_models self year make
  end.

(** A caller that performs the operations in turn and carries on after an
    exception: the world after the last one. *)
Fixpoint run_all (self : ref) (ops : list operation) (w : world) : world :=
  match ops with
  | [] => w
  | op :: ops => run_all self ops (invoke self op w).2
  end.

(** The process environment replaced by [env] (what [os.environ] updates or
    a different process state amount to). *)
Definition with_environ (env : gmap string string) (w : world) : world :=
  mkWorld env (objects w) (sent w) (remote w).

(** The calls an execution [c] started in [w] adds to the ones made before. *)
Definition issued {A} (c : M A) (w : world) : list http_get :=
  drop (length (sent w)) (sent (c w).2).

(** [needle] occurs in [s]. *)
Definition mentions (needle s : string) : bool :=
  match String.index 0 needle s with Some _ => true | None => false end.

(** A world for examples: nothing in the environment, one client. *)
Definition demo_client : CarmdApi_obj :=
  mkApi (VStr "Basic abc=") (VStr "0000-11")
        (CarmdAuth.__init__ (VStr "Basic abc=") (VStr "0000-11")).

Definition demo_world : world :=
  mkWorld ∅ {[ 1%positive := demo_client ]} []
          (λ _ _, Ok (mkResponse 200 "{}")).

Definition blank_world : world :=
  mkWorld ∅ ∅ [] (λ _ _, Ok (mkResponse 200 "{}")).

(** A predicted-repair call that names no identifier at all. *)
Definition lacks_identifier (op : operation) : bool :=
  match op with
  | OpPredictedRepair v t f => is_None v && is_None t && is_None f
  | _ => false
  end.

(** The generic [get], as opposed to the per-endpoint methods. *)
Definition is_generic (op : operation) : bool :=
  match op with OpGet _ _ _ => true | _ => false end.

(** A generic [get] given an option named [url]. *)
Definition names_url (op : operation) : bool :=
  match op with
  | OpGet _ _ kwargs => bool_decide (is_Some (kwargs !! "url"))
  | _ => false
  end.

(** The operations that reach the HTTP layer. *)
Definition reaches_http (op : operation) : bool :=
  negb (lacks_identifier op) && negb (names_url op).

(** * Properties *)

(** ** Basic facts about [get] and the calls issued *)

(** What [get] does on an initialised client when no option is named
    [url]: one call, whose outcome is the HTTP layer's. *)
Lemma get_run self service params kwargs w o :
  objects w !! self = Some o →
  kwargs !! "url" = None →
  CarmdApi.get self service params kwargs w =
    let c := mkGet (CMD_BASE_URL +:+ service) params
                   (<["auth" := OAuth (_auth o)]> kwargs) in
    (remote w (sent w) c,
     mkWorld (environ w) (objects w) (sent w ++ [c]) (remote w)).
Proof.
  intros Ho Hurl. unfold CarmdApi.get, bind, getattr. rewrite Ho.
  unfold requests_get. rewrite lookup_insert_ne by done. by rewrite Hurl.
Qed.

(** The per-endpoint methods give [get] no option. *)
Lemma get_run_plain self service params w o :
  objects w !! self = Some o →
  CarmdApi.get self service params ∅ w =
    let c := mkGet (CMD_BASE_URL +:+ service) params
                   {[ "auth" := OAuth (_auth o) ]} in
    (remote w (sent w) c,
     mkWorld (environ w) (objects w) (sent w ++ [c]) (remote w)).
Proof.
  intros Ho. rewrite (get_run _ _ _ _ _ _ Ho) by apply lookup_empty.
  by rewrite insert_empty.
Qed.

(** With an option named [url] the call never reaches the HTTP layer. *)
Lemma get_url_clash self service params kwargs w o :
  objects w !! self = Some o →
  is_Some (kwargs !! "url") →
  CarmdApi.get self service params kwargs w = (Raise (TypeError url_error), w).
Proof.
  intros Ho [v Hurl]. unfold CarmdApi.get, bind, getattr. rewrite Ho.
  unfold requests_get. rewrite lookup_insert_ne by done. by rewrite Hurl.
Qed.

(** On anything else [get] raises without calling the HTTP layer. *)
Lemma get_dangling self service params kwargs w :
  objects w !! self = None →
  ∃ e, CarmdApi.get self service params kwargs w = (Raise e, w).
Proof.
  intros Ho. unfold CarmdApi.get, bind, getattr. rewrite Ho. eauto.
Qed.

Lemma issued_one {A} (c : M A) w call w' r :
  c w = (r, w') → sent w' = sent w ++ [call] → issued c w = [call].
Proof.
  intros Hc Hs. unfold issued. rewrite Hc. simpl. rewrite Hs.
  by rewrite drop_app_length.
Qed.

Lemma issued_none {A} (c : M A) w r : c w = (r, w) → issued c w = [].
Proof.
  intros Hc. unfold issued. rewrite Hc. simpl. apply drop_all.
Qed.

(** ** The auth decorator *)

Lemma lower_authorization : lower "authorization" = "authorization".
Proof. reflexivity. Qed.

Lemma lower_partner_token : lower "partner-token" = "partner-token".
Proof. reflexivity. Qed.

(** Reading a header after one was written: names are compared without
    regard to case. *)
Lemma cid_lookup_setitem (d : CaseInsensitiveDict.t) (k h : string) (v : pyval) :
  CaseInsensitiveDict.__setitem__ d k v !! h =
    if decide (lower k = lower h) then Some v else d !! h.
Proof.
  unfold lookup, cid_lookup, CaseInsensitiveDict.get,
    CaseInsensitiveDict.__setitem__. simpl.
  rewrite lookup_insert. by destruct (decide (lower k = lower h)).
Qed.


Lemma cid_dom_setitem (d : CaseInsensitiveDict.t) (k : string) (v : pyval) :
  dom (CaseInsensitiveDict.__setitem__ d k v) = {[ lower k ]} ∪ dom d.
Proof.
  unfold dom, cid_dom, CaseInsensitiveDict.lower_keys,
    CaseInsensitiveDict.__setitem__. simpl. apply dom_insert_L.
Qed.

Lemma call_headers (a : CarmdAuth.t) (r : Request) :
  headers (CarmdAuth.__call__ a r) =
    CaseInsensitiveDict.__setitem__
      (CaseInsensitiveDict.__setitem__ (headers r)
         "authorization" (CarmdAuth.key a))
      "partner-token" (CarmdAuth.secret a).
Proof. reflexivity. Qed.

(** The entries the decorator leaves behind, as stored. *)
Lemma call_store (a : CarmdAuth.t) (r : Request) :
  CaseInsensitiveDict._store (headers (CarmdAuth.__call__ a r)) =
    <["partner-token" := ("partner-token", CarmdAuth.secret a)]>
      (<["authorization" := ("authorization", CarmdAuth.key a)]>
         (CaseInsensitiveDict._store (headers r))).
Proof. reflexivity. Qed.

Lemma call_credentials (a : CarmdAuth.t) (r : Request) :
  headers (CarmdAuth.__call__ a r) !! "authorization" = Some (CarmdAuth.key a) ∧
  headers (CarmdAuth.__call__ a r) !! "partner-token" = Some (CarmdAuth.secret a).
Proof.
  rewrite call_headers, !cid_lookup_setitem. split; reflexivity.
Qed.

(** Writing the same names again replaces what was written. *)
Lemma call_overwrites (a b : CarmdAuth.t) (r : Request) :
  CarmdAuth.__call__ b (CarmdAuth.__call__ a r) = CarmdAuth.__call__ b r.
Proof.
  destruct r as [m u [hs] b0]. unfold CarmdAuth.__call__,
    CaseInsensitiveDict.__setitem__. simpl. do 2 f_equal.
  apply map_eq. intros h.
  destruct (decide (h = "partner-token")) as [->|Hs].
  - by rewrite !lookup_insert_eq.
  - rewrite !(lookup_insert_ne _ "partner-token") by done.
    destruct (decide (h = "authorization")) as [->|Hk].
    + by rewrite !lookup_insert_eq.
    + by rewrite !lookup_insert_ne.
Qed.

(** C5. Applying the decorator writes the key under [authorization] and the
    secret under [partner-token], both verbatim, and nothing else: header
    names being compared without regard to case, every header with another
    name keeps its value and its spelling, and the method, the URL and the
    body of the request are as they were. *)
Theorem auth_call_sets_two_headers (a : CarmdAuth.t) (r : Request) :
  let r' := CarmdAuth.__call__ a r in
  headers r' !! "authorization" = Some (CarmdAuth.key a) ∧
  headers r' !! "partner-token" = Some (CarmdAuth.secret a) ∧
  (∀ h : string, lower h = "authorization" →
     headers r' !! h = Some (CarmdAuth.key a)) ∧
  (∀ h : string, lower h = "partner-token" →
     headers r' !! h = Some (CarmdAuth.secret a)) ∧
  (∀ h : string, lower h ≠ "authorization" → lower h ≠ "partner-token" →
     headers r' !! h = headers r !! h) ∧
  (∀ n : string, n ≠ "authorization" → n ≠ "partner-token" →
     CaseInsensitiveDict._store (headers r') !! n
       = CaseInsensitiveDict._store (headers r) !! n) ∧
  CaseInsensitiveDict._store (headers r') !! "authorization"
    = Some ("authorization", CarmdAuth.key a) ∧
  CaseInsensitiveDict._store (headers r') !! "partner-token"
    = Some ("partner-token", CarmdAuth.secret a) ∧
  dom (headers r') = {[ "authorization"; "partner-token" ]} ∪ dom (headers r) ∧
  method r' = method r ∧ url r' = url r ∧ body r' = body r.
Proof.
  cbv zeta. destruct (call_credentials a r) as [Hk Hs].
  split_and!; try reflexivity; try assumption.
  - intros h Hh. rewrite call_headers, !cid_lookup_setitem.
    rewrite Hh, lower_authorization, lower_partner_token.
    destruct (decide ("partner-token" = "authorization")); [done|].
    by destruct (decide ("authorization" = "authorization")).
  - intros h Hh. rewrite call_headers, !cid_lookup_setitem.
    rewrite Hh, lower_partner_token.
    by destruct (decide ("partner-token" = "partner-token")).
  - intros h Hk' Hs'. rewrite call_headers, !cid_lookup_setitem.
    rewrite lower_authorization, lower_partner_token.
    destruct (decide ("partner-token" = lower h)); [congruence|].
    destruct (decide ("authorization" = lower h)); [congruence|done].
  - intros n Hk' Hs'. rewrite call_store. by rewrite !lookup_insert_ne.
  - rewrite call_store. rewrite lookup_insert_ne by done. apply lookup_insert_eq.
  - rewrite call_store. apply lookup_insert_eq.
  - rewrite call_headers, !cid_dom_setitem.
    rewrite lower_authorization, lower_partner_token.
    apply set_eq. intros h.
    rewrite !elem_of_union, !elem_of_singleton. tauto.
Qed.

(** C6. Decorating a request a second time changes nothing: the request is
    the one obtained from the first application, and its two credential
    headers still hold the configured key and secret. *)
Theorem auth_call_idempotent (a : CarmdAuth.t) (r : Request) :
  CarmdAuth.__call__ a (CarmdAuth.__call__ a r) = CarmdAuth.__call__ a r ∧
  headers (CarmdAuth.__call__ a (CarmdAuth.__call__ a r)) !! "authorization"
    = Some (CarmdAuth.key a) ∧
  headers (CarmdAuth.__call__ a (CarmdAuth.__call__ a r)) !! "partner-token"
    = Some (CarmdAuth.secret a).
Proof.
  rewrite call_overwrites. destruct (call_credentials a r) as [Hk Hs].
  by split_and!.
Qed.

(** ** Predicted repair *)

(** C1. Predicted repair hands [get] a one-entry mapping picked in the order
    vehicle id, tag, fleet id: [vehicleID] when a vehicle id is given, else
    [tag] when a tag is given, else [fleetID] when a fleet id is given; on an
    initialised client that mapping is the query of the single call made. *)
Theorem predicted_repair_param_priority
    (self : ref) (w : world) (o : CarmdApi_obj)
    (vehicle_id tag fleet_id : pyval) :
  objects w !! self = Some o →
  let run := CarmdApi.get_predicted_repair self vehicle_id tag fleet_id in
  let chooses (name : string) (value : pyval) :=
    run = CarmdApi.get self "report/predicted" (Some {[ name := value ]}) ∅ ∧
    issued run w = [mkGet (CMD_BASE_URL +:+ "report/predicted")
                          (Some {[ name := value ]})
                          {[ "auth" := OAuth (_auth o) ]}] ∧
    size ({[ name := value ]} : gmap string pyval) = 1%nat in
  (vehicle_id ≠ VNone → chooses "vehicleID" vehicle_id) ∧
  (vehicle_id = VNone → tag ≠ VNone → chooses "tag" tag) ∧
  (vehicle_id = VNone → tag = VNone → fleet_id ≠ VNone →
     chooses "fleetID" fleet_id).
Proof.
  intros Ho run chooses.
  assert (Hsent : ∀ name value,
            run = CarmdApi.get self "report/predicted"
                    (Some {[ name := value ]}) ∅ →
            chooses name value).
  { intros name value Hrun. split; [done|]. split; [|apply map_size_singleton].
    rewrite Hrun.
    eapply issued_one; [by apply get_run|]. simpl.
    by rewrite insert_empty. }
  subst run. split_and!.
  - intros Hv. apply Hsent. by destruct vehicle_id.
  - intros -> Ht. apply Hsent. by destruct tag.
  - intros -> -> Hf. apply Hsent. by destruct fleet_id.
Qed.

Lemma predicted_repair_param_priority_witness :
  objects demo_world !! 1%positive = Some demo_client ∧
  issued (CarmdApi.get_predicted_repair 1%positive (VStr "veh-1") (VStr "t") VNone)
         demo_world
  = [mkGet (CMD_BASE_URL +:+ "report/predicted")
           (Some {[ "vehicleID" := VStr "veh-1" ]})
           {[ "auth" := OAuth (_auth demo_client) ]}].
Proof.
  split; [reflexivity|].
  apply (predicted_repair_param_priority 1%positive demo_world demo_client
           (VStr "veh-1") (VStr "t") VNone); [reflexivity | discriminate].
Defined.

(** C2. With no vehicle id, no tag and no fleet id, predicted repair raises
    [TypeError] without reaching [get]: the world is left as it was and no
    call to the HTTP layer is made. *)
Theorem predicted_repair_requires_identifier (self : ref) (w : world) :
  CarmdApi.get_predicted_repair self VNone VNone VNone
    = raise (TypeError CarmdApi.missing_error) ∧
  CarmdApi.get_predicted_repair self VNone VNone VNone w
    = (Raise (TypeError CarmdApi.missing_error), w) ∧
  issued (CarmdApi.get_predicted_repair self VNone VNone VNone) w = [].
Proof.
  split; [reflexivity|]. split; [reflexivity|].
  by eapply issued_none.
Qed.

(** ** Construction *)

(** [__init__] in one equation: the arguments after fallback, the test on
    their truth values, and the allocation. *)
Lemma init_run (G : globals) (key secret : pyval) (w : world) :
  let k := if is_None key then CMD_DEFAULT_KEY G else key in
  let s := if is_None secret then CMD_DEFAULT_SECRET G else secret in
  CarmdApi.__init__ G key secret w =
    if truthy k && truthy s
    then new_object (mkApi k s (CarmdAuth.mk k s)) w
    else (Raise (KeyError CarmdApi.init_error), w).
Proof.
  cbv zeta. unfold CarmdApi.__init__, py_all. simpl.
  rewrite andb_true_r.
  by destruct (truthy _ && truthy _).
Qed.

Lemma new_object_run (o : CarmdApi_obj) (w : world) :
  ∃ self, objects w !! self = None ∧
    new_object o w =
      (Ok self, mkWorld (environ w) (<[self := o]> (objects w)) (sent w) (remote w)).
Proof.
  exists (fresh (dom (objects w))). split; [|reflexivity].
  apply not_elem_of_dom, is_fresh.
Qed.

Lemma truthy_str (s : string) : truthy (VStr s) = true ↔ s ≠ EmptyString.
Proof.
  simpl. rewrite negb_true_iff. split.
  - intros H ->. by rewrite String.eqb_refl in H.
  - intros H. by apply String.eqb_neq.
Qed.

(** C3, as stated, fails: an empty string supplied as the key is not [None],
    so no fallback takes place, and it is rejected by the truth-value test
    even when the environment defaults hold both credentials. *)
Lemma init_rejects_empty_key :
  ¬ (∀ (key secret : string) (G : globals) (w : world),
       ∃ self w', CarmdApi.__init__ G (VStr key) (VStr secret) w = (Ok self, w')).
Proof.
  intros H.
  destruct (H EmptyString "0000-11"
              (mkGlobals (VStr "Basic env=") (VStr "9999-00")) blank_world)
    as (self & w' & Hinit).
  discriminate Hinit.
Qed.

(** C3. For every non-empty key string and non-empty secret string,
    construction with both supplied succeeds, whatever the defaults taken
    from the environment at import and whatever the environment is now: a
    new client holding exactly the two strings is allocated. *)
Theorem init_with_both_supplied (G : globals) (key secret : string) (w : world) :
  key ≠ EmptyString → secret ≠ EmptyString →
  ∃ self,
    objects w !! self = None ∧
    CarmdApi.__init__ G (VStr key) (VStr secret) w =
      (Ok self,
       mkWorld (environ w)
               (<[self := mkApi (VStr key) (VStr secret)
                                (CarmdAuth.mk (VStr key) (VStr secret))]> (objects w))
               (sent w) (remote w)).
Proof.
  intros Hk Hs. rewrite init_run. cbv zeta. cbn [is_None].
  apply truthy_str in Hk, Hs. rewrite Hk, Hs. simpl andb. cbv iota.
  apply new_object_run.
Qed.

Lemma init_with_both_supplied_witness :
  ∃ self,
    objects blank_world !! self = None ∧
    CarmdApi.__init__ (mkGlobals VNone VNone) (VStr "Basic abc=") (VStr "0000-11")
                      blank_world =
      (Ok self,
       mkWorld (environ blank_world)
               (<[self := mkApi (VStr "Basic abc=") (VStr "0000-11")
                                (CarmdAuth.mk (VStr "Basic abc=") (VStr "0000-11"))]>
                  (objects blank_world))
               (sent blank_world) (remote blank_world)).
Proof.
  apply (init_with_both_supplied (mkGlobals VNone VNone)
           "Basic abc=" "0000-11" blank_world); discriminate.
Defined.

(** C4, as stated, fails: with [CARMD_KEY] set to the empty string at import
    and the key omitted, the key after fallback is a string, not [None], and
    construction raises all the same. *)
Lemma init_fails_on_set_but_empty :
  ¬ (∀ (G : globals) (key secret : pyval) (w : world),
       let k := if is_None key then CMD_DEFAULT_KEY G else key in
       let s := if is_None secret then CMD_DEFAULT_SECRET G else secret in
       (∃ msg, (CarmdApi.__init__ G key secret w).1 = Raise (KeyError msg))
       ↔ (k = VNone ∨ s = VNone)).
Proof.
  intros H.
  pose (w0 := with_environ {[ "CARMD_KEY" := EmptyString;
                              "CARMD_SECRET" := "9999-00" ]} blank_world).
  destruct (H (mkGlobals (VStr EmptyString) (VStr "9999-00"))
              VNone VNone w0) as [Hfail _].
  destruct Hfail as [Hk | Hs]; [|discriminate Hk|discriminate Hs].
  eexists. reflexivity.
Qed.

(** C4. After the omitted arguments are replaced by the import-time
    defaults, construction raises [KeyError] exactly when the key or the
    secret is false as a truth value ([None], an empty string, zero or
    [False]); the world is then untouched and the message names the key,
    the secret and both environment variables.  When it succeeds it only
    allocates the client: no call to the HTTP layer is made. *)
Theorem init_fails_iff_credential_falsy
    (G : globals) (key secret : pyval) (w : world) :
  let k := if is_None key then CMD_DEFAULT_KEY G else key in
  let s := if is_None secret then CMD_DEFAULT_SECRET G else secret in
  ((∃ msg, (CarmdApi.__init__ G key secret w).1 = Raise (KeyError msg))
   ↔ (truthy k = false ∨ truthy s = false)) ∧
  (truthy k = false ∨ truthy s = false →
   CarmdApi.__init__ G key secret w = (Raise (KeyError CarmdApi.init_error), w)) ∧
  (k = VNone ∨ s = VNone →
   CarmdApi.__init__ G key secret w = (Raise (KeyError CarmdApi.init_error), w)) ∧
  mentions "key" CarmdApi.init_error = true ∧
  mentions "secret" CarmdApi.init_error = true ∧
  mentions "'CARMD_KEY'" CarmdApi.init_error = true ∧
  mentions "'CARMD_SECRET'" CarmdApi.init_error = true ∧
  (∀ self w', CarmdApi.__init__ G key secret w = (Ok self, w') →
     sent w' = sent w ∧ environ w' = environ w ∧
     objects w' = <[self := mkApi k s (CarmdAuth.mk k s)]> (objects w) ∧
     issued (CarmdApi.__init__ G key secret) w = []).
Proof.
  intros k s.
  assert (Hfail : truthy k = false ∨ truthy s = false →
            CarmdApi.__init__ G key secret w
            = (Raise (KeyError CarmdApi.init_error), w)).
  { intros Hf. rewrite init_run. fold k s.
    destruct Hf as [-> | ->]; [done | by rewrite andb_false_r]. }
  split_and!; try reflexivity; try exact Hfail.
  - split.
    + intros [msg Hmsg]. rewrite init_run in Hmsg. fold k s in Hmsg.
      destruct (truthy k); [|by left]. destruct (truthy s); [|by right].
      discriminate Hmsg.
    + intros Hf. exists CarmdApi.init_error. by rewrite Hfail.
  - intros [-> | ->]; apply Hfail; [by left | by right].
  - intros self w' Hinit. unfold issued. rewrite Hinit.
    rewrite init_run in Hinit. fold k s in Hinit.
    destruct (truthy k && truthy s); [|discriminate Hinit].
    unfold new_object in Hinit. injection Hinit as <- <-. simpl.
    split_and!; try reflexivity. apply drop_all.
Qed.

(** The defaults an import computes when [CARMD_KEY] is set but empty. *)
Example import_with_empty_key :
  import_module (with_environ {[ "CARMD_KEY" := EmptyString;
                                 "CARMD_SECRET" := "9999-00" ]} blank_world)
  = (Ok (mkGlobals (VStr EmptyString) (VStr "9999-00")),
     with_environ {[ "CARMD_KEY" := EmptyString;
                     "CARMD_SECRET" := "9999-00" ]} blank_world).
Proof. reflexivity. Qed.

(** The environment is read when the module is imported; a later change of
    the variables is not seen by a construction that omits both arguments. *)
Example init_after_environment_change :
  let w0 := with_environ {[ "CARMD_KEY" := "Basic old="; "CARMD_SECRET" := "1111-22" ]}
                         blank_world in
  let w1 := with_environ {[ "CARMD_KEY" := "Basic new="; "CARMD_SECRET" := "3333-44" ]}
                         blank_world in
  ∃ G self w2,
    import_module w0 = (Ok G, w0) ∧
    CarmdApi.__init__ G VNone VNone w1 = (Ok self, w2) ∧
    objects w2 !! self =
      Some (mkApi (VStr "Basic old=") (VStr "1111-22")
                  (CarmdAuth.mk (VStr "Basic old=") (VStr "1111-22"))).
Proof. do 3 eexists. split_and!; reflexivity. Qed.

(** C10. Importing the module reads [CARMD_KEY] and [CARMD_SECRET] once and
    keeps them as the defaults.  A construction that omits the key or the
    secret uses the value the variable had at import: with the omitted
    arguments replaced by those values it succeeds when both are true as
    truth values, storing them, and raises otherwise.  The environment at
    the time of construction plays no part: run under any other environment
    the construction has the same outcome and the same effect. *)
Theorem defaults_captured_at_import (w0 : world) :
  ∃ G : globals,
    import_module w0 = (Ok G, w0) ∧
    CMD_DEFAULT_KEY G = from_option VStr VNone (environ w0 !! "CARMD_KEY") ∧
    CMD_DEFAULT_SECRET G = from_option VStr VNone (environ w0 !! "CARMD_SECRET") ∧
    ∀ (key secret : pyval) (w : world),
      (∀ env' : gmap string string,
         CarmdApi.__init__ G key secret (with_environ env' w) =
           ((CarmdApi.__init__ G key secret w).1,
            with_environ env' (CarmdApi.__init__ G key secret w).2)) ∧
      (∀ self w', CarmdApi.__init__ G key secret w = (Ok self, w') →
         ∃ o, objects w' !! self = Some o ∧
           (key = VNone →
            _key o = from_option VStr VNone (environ w0 !! "CARMD_KEY")) ∧
           (secret = VNone →
            _secret o = from_option VStr VNone (environ w0 !! "CARMD_SECRET"))) ∧
      (let k := if is_None key
                then from_option VStr VNone (environ w0 !! "CARMD_KEY")
                else key in
       let s := if is_None secret
                then from_option VStr VNone (environ w0 !! "CARMD_SECRET")
                else secret in
       (truthy k = true → truthy s = true →
        ∃ self,
          objects w !! self = None ∧
          CarmdApi.__init__ G key secret w =
            (Ok self,
             mkWorld (environ w)
                     (<[self := mkApi k s (CarmdAuth.mk k s)]> (objects w))
                     (sent w) (remote w))) ∧
       (truthy k = false ∨ truthy s = false →
        CarmdApi.__init__ G key secret w
          = (Raise (KeyError CarmdApi.init_error), w))) ∧
      (∀ (k s : string) (env' : gmap string string),
         environ w0 !! "CARMD_KEY" = Some k →
         environ w0 !! "CARMD_SECRET" = Some s →
         k ≠ EmptyString → s ≠ EmptyString →
         ∃ self,
           objects w !! self = None ∧
           CarmdApi.__init__ G VNone VNone (with_environ env' w) =
             (Ok self,
              mkWorld env'
                      (<[self := mkApi (VStr k) (VStr s)
                                   (CarmdAuth.mk (VStr k) (VStr s))]> (objects w))
                      (sent w) (remote w))) ∧
      (∀ env' : gmap string string,
         environ w0 !! "CARMD_KEY" = None →
         CarmdApi.__init__ G VNone secret (with_environ env' w)
           = (Raise (KeyError CarmdApi.init_error), with_environ env' w)).
Proof.
  eexists. split; [reflexivity|]. split; [reflexivity|]. split; [reflexivity|].
  intros key secret w. cbv zeta. split_and!.
  - intros env'. rewrite !init_run. cbv zeta.
    by destruct (truthy _ && truthy _).
  - intros self w' Hinit. rewrite init_run in Hinit. cbv zeta in Hinit.
    destruct (truthy _ && truthy _); [|discriminate Hinit].
    unfold new_object in Hinit. injection Hinit as <- <-. simpl.
    eexists. split; [apply lookup_insert_eq|].
    split; intros ->; reflexivity.
  - intros Hk Hs. rewrite init_run. cbv zeta.
    cbn [CMD_DEFAULT_KEY CMD_DEFAULT_SECRET]. rewrite Hk, Hs. simpl andb.
    cbv iota. apply new_object_run.
  - intros Hf. rewrite init_run. cbv zeta.
    cbn [CMD_DEFAULT_KEY CMD_DEFAULT_SECRET].
    destruct Hf as [-> | ->]; [done | by rewrite andb_false_r].
  - intros k s env' Hk Hs Hnk Hns. rewrite init_run. cbv zeta.
    cbn [is_None CMD_DEFAULT_KEY CMD_DEFAULT_SECRET]. rewrite Hk, Hs.
    cbn [from_option]. apply truthy_str in Hnk, Hns. rewrite Hnk, Hns.
    simpl andb. cbv iota.
    apply (new_object_run _ (with_environ env' w)).
  - intros env' Hk. rewrite init_run. cbv zeta.
    cbn [is_None CMD_DEFAULT_KEY]. rewrite Hk. reflexivity.
Qed.

(** ** The generic [get] *)

(** C7, as stated, fails for two options.  A caller's own [auth] does not
    reach the HTTP layer: the client's auth object is passed in its place.
    And an option named [url] clashes with the positional URL of the call:
    [TypeError] is raised and the HTTP layer receives nothing. *)
Lemma get_replaces_caller_auth :
  ¬ (∀ (self : ref) (service : string) (params : option (gmap string pyval))
       (kwargs : gmap string pyobj) (w : world) (o : CarmdApi_obj),
       objects w !! self = Some o →
       ∀ (k : string) (v : pyobj), kwargs !! k = Some v →
         ∃ call, issued (CarmdApi.get self service params kwargs) w = [call] ∧
                 get_kwargs call !! k = Some v) ∧
  CarmdApi.get 1%positive "decode" None
      {[ "url" := OVal (VStr "http://example.org/") ]} demo_world
    = (Raise (TypeError url_error), demo_world) ∧
  issued (CarmdApi.get 1%positive "decode" None
            {[ "url" := OVal (VStr "http://example.org/") ]}) demo_world = [].
Proof.
  split_and!; [|reflexivity|reflexivity].
  intros H.
  pose (kwargs := ({[ "auth" := OVal (VStr "mine");
                      "timeout" := OVal (VInt 5) ]} : gmap string pyobj)).
  assert (Ho : objects demo_world !! 1%positive = Some demo_client)
    by reflexivity.
  assert (Hk : kwargs !! "auth" = Some (OVal (VStr "mine")))
    by apply lookup_insert_eq.
  destruct (H 1%positive "decode" None kwargs demo_world demo_client Ho
              "auth" (OVal (VStr "mine")) Hk)
    as (call & Hcall & Hauth).
  erewrite issued_one in Hcall;
    [|apply (get_run _ _ _ _ _ _ Ho); reflexivity|reflexivity].
  injection Hcall as <-. simpl in Hauth.
  rewrite lookup_insert_eq in Hauth. discriminate Hauth.
Qed.

(** C7. On an initialised client, and with no option named [url], [get]
    hands the HTTP layer one call, for the base URL followed by the
    service, with the query parameters it was given, and its outcome is the
    layer's.  The options of that call are the caller's with [auth] set to
    the client's auth object: every option not named [auth] is passed on as
    supplied, and nothing else is added.  With an option named [url] the
    call raises [TypeError] and the HTTP layer receives nothing. *)
Theorem get_forwards_options
    (self : ref) (service : string) (params : option (gmap string pyval))
    (kwargs : gmap string pyobj) (w : world) (o : CarmdApi_obj) :
  objects w !! self = Some o →
  (kwargs !! "url" = None →
   ∃ call,
     CarmdApi.get self service params kwargs w =
       (remote w (sent w) call,
        mkWorld (environ w) (objects w) (sent w ++ [call]) (remote w)) ∧
     issued (CarmdApi.get self service params kwargs) w = [call] ∧
     get_url call = CMD_BASE_URL +:+ service ∧
     get_params call = params ∧
     get_kwargs call !! "auth" = Some (OAuth (_auth o)) ∧
     (∀ k : string, k ≠ "auth" → get_kwargs call !! k = kwargs !! k) ∧
     dom (get_kwargs call) = {[ "auth" ]} ∪ dom kwargs) ∧
  (is_Some (kwargs !! "url") →
   CarmdApi.get self service params kwargs w
     = (Raise (TypeError url_error), w) ∧
   issued (CarmdApi.get self service params kwargs) w = []).
Proof.
  intros Ho. split.
  - intros Hurl. eexists. split; [by apply get_run|]. simpl. split_and!.
    + eapply issued_one; [by apply get_run | reflexivity].
    + reflexivity.
    + reflexivity.
    + apply lookup_insert_eq.
    + intros k Hk. by rewrite lookup_insert_ne.
    + apply dom_insert_L.
  - intros Hurl. split; [by eapply get_url_clash|].
    eapply issued_none. by eapply get_url_clash.
Qed.

Lemma get_forwards_options_witness :
  objects demo_world !! 1%positive = Some demo_client ∧
  ∃ call,
    issued (CarmdApi.get 1%positive "decode" (Some {[ "vin" := VStr "5XYKTDA26DG338929" ]})
              {[ "timeout" := OVal (VInt 5) ]}) demo_world = [call] ∧
    get_url call = "http://api2.carmd.com/v2.0/decode" ∧
    get_kwargs call !! "timeout" = Some (OVal (VInt 5)) ∧
    get_kwargs call !! "auth" = Some (OAuth (_auth demo_client)).
Proof.
  split; [reflexivity|].
  destruct (get_forwards_options 1%positive "decode"
              (Some {[ "vin" := VStr "5XYKTDA26DG338929" ]})
              {[ "timeout" := OVal (VInt 5) ]} demo_world demo_client eq_refl)
    as [Hplain _].
  destruct (Hplain eq_refl)
    as (call & _ & Hissued & Hurl & _ & Hauth & Hother & _).
  exists call. split_and!; [exact Hissued | exact Hurl | | exact Hauth].
  rewrite Hother by discriminate. reflexivity.
Defined.

(** ** Models by year and make *)

(** C8. [get_models] queries with [year] set to [str(year)] and [make] set
    to the make: the decimal numeral for an integer year, the string itself
    for a string year.  For 2013 and "Toyota" the query is year "2013",
    make "Toyota", whether 2013 came as an integer or as a string. *)
Theorem get_models_year_coerced
    (self : ref) (w : world) (o : CarmdApi_obj) (year : pyval) (make : string) :
  objects w !! self = Some o →
  let run := CarmdApi.get_models self year (VStr make) in
  let params : gmap string pyval :=
    {[ "year" := VStr (py_str year); "make" := VStr make ]} in
  run = CarmdApi.get self "decode" (Some params) ∅ ∧
  issued run w =
    [mkGet (CMD_BASE_URL +:+ "decode") (Some params)
           {[ "auth" := OAuth (_auth o) ]}] ∧
  params !! "make" = Some (VStr make) ∧
  (∀ n : Z, year = VInt n → params !! "year" = Some (VStr (pretty n))) ∧
  (∀ s : string, year = VStr s → params !! "year" = Some (VStr s)) ∧
  dom params = {[ "year"; "make" ]} ∧
  (year = VInt 2013 ∨ year = VStr "2013" → make = "Toyota" →
   params = {[ "year" := VStr "2013"; "make" := VStr "Toyota" ]}).
Proof.
  intros Ho run params. split_and!.
  - reflexivity.
  - eapply issued_one; [by apply get_run|]. simpl.
    by rewrite insert_empty.
  - subst params. rewrite lookup_insert_ne by done. apply lookup_singleton_eq.
  - intros n ->. apply lookup_insert_eq.
  - intros s ->. apply lookup_insert_eq.
  - subst params. rewrite dom_insert_L, dom_singleton_L. reflexivity.
  - intros [-> | ->] ->; reflexivity.
Qed.

Lemma get_models_year_coerced_witness :
  objects demo_world !! 1%positive = Some demo_client ∧
  issued (CarmdApi.get_models 1%positive (VInt 2013) (VStr "Toyota")) demo_world =
    [mkGet "http://api2.carmd.com/v2.0/decode"
           (Some {[ "year" := VStr "2013"; "make" := VStr "Toyota" ]})
           {[ "auth" := OAuth (_auth demo_client) ]}].
Proof.
  split; [reflexivity|].
  apply (get_models_year_coerced 1%positive demo_world demo_client
           (VInt 2013) "Toyota" eq_refl).
Defined.

(** ** Credentials over the life of a client *)

Lemma world_eta (w : world) :
  mkWorld (environ w) (objects w) (sent w ++ []) (remote w) = w.
Proof. destruct w. simpl. by rewrite app_nil_r. Qed.

(** Whatever [get] is called on, it leaves every client object as it is. *)
Lemma get_keeps_objects self service params kwargs w :
  objects (CarmdApi.get self service params kwargs w).2 = objects w.
Proof.
  unfold CarmdApi.get, bind, getattr, requests_get.
  destruct (objects w !! self); [|reflexivity].
  by destruct (_ !! "url").
Qed.

Lemma invoke_keeps_objects (self : ref) (op : operation) (w : world) :
  objects (invoke self op w).2 = objects w.
Proof.
  destruct op; simpl; try apply get_keeps_objects.
  unfold CarmdApi.get_predicted_repair.
  destruct vehicle_id, tag, fleet_id; simpl;
    first [reflexivity | apply get_keeps_objects].
Qed.

(** The calls one operation adds all carry the auth object of the client. *)
Lemma invoke_effect (self : ref) (op : operation) (w : world) (o : CarmdApi_obj) :
  objects w !! self = Some o →
  ∃ calls,
    (invoke self op w).2 =
      mkWorld (environ w) (objects w) (sent w ++ calls) (remote w) ∧
    Forall (λ c, get_kwargs c !! "auth" = Some (OAuth (_auth o))) calls.
Proof.
  intros Ho.
  assert (Hget : ∀ service params kwargs,
            ∃ calls,
              (CarmdApi.get self service params kwargs w).2 =
                mkWorld (environ w) (objects w) (sent w ++ calls) (remote w) ∧
              Forall (λ c, get_kwargs c !! "auth" = Some (OAuth (_auth o))) calls).
  { intros service params kwargs.
    destruct (kwargs !! "url") as [v|] eqn:Hurl.
    - exists []. rewrite (get_url_clash _ _ _ _ _ _ Ho) by by eexists.
      split; [by rewrite world_eta | constructor].
    - eexists [_].
      rewrite (get_run _ _ _ _ _ _ Ho Hurl). simpl. split; [reflexivity|].
      constructor; [|constructor]. simpl. apply lookup_insert_eq. }
  destruct op; simpl; try apply Hget.
  unfold CarmdApi.get_predicted_repair.
  destruct vehicle_id, tag, fleet_id; simpl; try apply Hget.
  exists []. split; [by rewrite world_eta | constructor].
Qed.

Lemma run_all_effect (self : ref) (ops : list operation) (w : world)
    (o : CarmdApi_obj) :
  objects w !! self = Some o →
  ∃ calls,
    run_all self ops w =
      mkWorld (environ w) (objects w) (sent w ++ calls) (remote w) ∧
    Forall (λ c, get_kwargs c !! "auth" = Some (OAuth (_auth o))) calls.
Proof.
  revert w. induction ops as [|op ops IH]; intros w Ho; simpl.
  - exists []. split; [by rewrite world_eta | constructor].
  - destruct (invoke_effect self op w o Ho) as (calls1 & Hw1 & Hall1).
    rewrite Hw1.
    destruct (IH (mkWorld (environ w) (objects w) (sent w ++ calls1) (remote w)) Ho)
      as (calls2 & Hw2 & Hall2).
    exists (calls1 ++ calls2). rewrite Hw2. simpl. split.
    + by rewrite app_assoc.
    + by apply Forall_app.
Qed.

(** C9. A constructed client holds its key, its secret and the auth object
    made from them, and no operation changes any of it: [get] and the
    per-endpoint methods leave the client objects as they are, so after any
    sequence of operations the client is the one [__init__] made, and every
    call sent in between carries the same auth object, which writes the same
    key and secret into the headers of any request. *)
Theorem credentials_fixed_for_life
    (G : globals) (key secret : pyval) (w0 w1 : world) (self : ref)
    (ops : list operation) :
  CarmdApi.__init__ G key secret w0 = (Ok self, w1) →
  ∃ k s : pyval,
    objects w1 !! self = Some (mkApi k s (CarmdAuth.mk k s)) ∧
    (∀ op w, objects (invoke self op w).2 = objects w) ∧
    objects (run_all self ops w1) !! self = Some (mkApi k s (CarmdAuth.mk k s)) ∧
    ∃ calls,
      sent (run_all self ops w1) = sent w1 ++ calls ∧
      Forall (λ c, get_kwargs c !! "auth" = Some (OAuth (CarmdAuth.mk k s)) ∧
                   ∀ r : Request,
                     headers (CarmdAuth.__call__ (CarmdAuth.mk k s) r)
                       !! "authorization" = Some k ∧
                     headers (CarmdAuth.__call__ (CarmdAuth.mk k s) r)
                       !! "partner-token" = Some s) calls.
Proof.
  intros Hinit. rewrite init_run in Hinit. cbv zeta in Hinit.
  destruct (truthy _ && truthy _); [|discriminate Hinit].
  unfold new_object in Hinit. injection Hinit as <- <-.
  set (k := if is_None key then CMD_DEFAULT_KEY G else key).
  set (s := if is_None secret then CMD_DEFAULT_SECRET G else secret).
  set (w1 := mkWorld _ _ _ _).
  assert (Ho : objects w1 !! fresh (dom (objects w0))
               = Some (mkApi k s (CarmdAuth.mk k s))) by apply lookup_insert_eq.
  exists k, s. split; [exact Ho|]. split; [apply invoke_keeps_objects|].
  destruct (run_all_effect _ ops w1 _ Ho) as (calls & Hrun & Hall).
  rewrite Hrun. simpl objects. split; [exact Ho|].
  exists calls. split; [reflexivity|].
  eapply Forall_impl; [exact Hall|].
  intros c Hc. split; [exact Hc|].
  intros r. apply (call_credentials (CarmdAuth.mk k s) r).
Qed.

Lemma credentials_fixed_for_life_witness :
  let G := mkGlobals VNone VNone in
  let ops := [OpDecode (VStr "5XYKTDA26DG338929");
              OpPredictedRepair VNone VNone VNone;
              OpGet "decode" None {[ "auth" := OVal (VStr "mine") ]};
              OpMaintenance (VStr "5XYKTDA26DG338929") (VInt 25350)] in
  let w1 := (CarmdApi.__init__ G (VStr "Basic abc=") (VStr "0000-11") blank_world).2 in
  CarmdApi.__init__ G (VStr "Basic abc=") (VStr "0000-11") blank_world
    = (Ok 1%positive, w1) ∧
  ∃ k s : pyval,
    objects w1 !! 1%positive = Some (mkApi k s (CarmdAuth.mk k s)) ∧
    objects (run_all 1%positive ops w1) !! 1%positive
      = Some (mkApi k s (CarmdAuth.mk k s)).
Proof.
  intros G ops w1. split; [reflexivity|].
  destruct (credentials_fixed_for_life G (VStr "Basic abc=") (VStr "0000-11")
              blank_world w1 1%positive ops eq_refl)
    as (k & s & Ho & _ & Hrun & _).
  exists k, s. split; [exact Ho | exact Hrun].
Defined.

(** * Further properties of the module *)

(** ** The decorator on requests that already carry credentials *)

(** X2. The decorator overwrites: decorating with [b] a request that [a]
    decorated before gives what decorating with [b] alone gives, so the
    credentials written last are the only ones the request carries. *)
Theorem auth_call_last_wins (a b : CarmdAuth.t) (r : Request) :
  CarmdAuth.__call__ b (CarmdAuth.__call__ a r) = CarmdAuth.__call__ b r.
Proof. apply call_overwrites. Qed.



(** ** Outcome of an operation *)

Lemma invoke_lacking (self : ref) (op : operation) :
  lacks_identifier op = true →
  invoke self op = raise (TypeError CarmdApi.missing_error).
Proof.
  destruct op; try discriminate. simpl.
  destruct vehicle_id, tag, fleet_id; try discriminate. reflexivity.
Qed.

(** Every other operation is one use of [get]; the per-endpoint methods give
    it no options. *)
Lemma invoke_as_get (self : ref) (op : operation) :
  lacks_identifier op = false →
  ∃ service params kwargs,
    invoke self op = CarmdApi.get self service params kwargs ∧
    names_url op = bool_decide (is_Some (kwargs !! "url")) ∧
    (is_generic op = false → kwargs = ∅).
Proof.
  intros Hop.
  destruct op; simpl in *;
    try (by eexists _, _, ∅; split; [reflexivity|]).
  - by eexists _, _, _; split; [reflexivity|].
  - destruct vehicle_id, tag, fleet_id; try discriminate;
      by eexists _, _, ∅; split; [reflexivity|].
Qed.

(** The world after one operation: as before when the operation does not
    reach the HTTP layer, with one more call in the log when it does. *)
Lemma operation_outcome_cases
    (self : ref) (op : operation) (w : world) (o : CarmdApi_obj) :
  objects w !! self = Some o →
  (reaches_http op = false ∧ (invoke self op w).2 = w) ∨
  (reaches_http op = true ∧
   ∃ call, (invoke self op w).2 =
             mkWorld (environ w) (objects w) (sent w ++ [call]) (remote w)).
Proof.
  intros Ho. unfold reaches_http.
  destruct (lacks_identifier op) eqn:Hop.
  - left. split; [reflexivity|]. by rewrite invoke_lacking.
  - destruct (invoke_as_get self op Hop)
      as (service & params & kwargs & -> & -> & _). simpl negb at 1.
    rewrite andb_true_l.
    destruct (kwargs !! "url") as [v|] eqn:Hurl.
    + left. rewrite bool_decide_eq_true_2 by by eexists.
      split; [reflexivity|].
      by rewrite (get_url_clash _ _ _ _ _ _ Ho) by by eexists.
    + right. rewrite bool_decide_eq_false_2 by by intros [? ?].
      split; [reflexivity|]. eexists.
      by rewrite (get_run _ _ _ _ _ _ Ho Hurl).
Qed.

(** X4. On an initialised client the module itself raises in two cases
    only, both [TypeError] and both before the HTTP layer is entered:
    predicted repair without any identifier, and a generic [get] given an
    option named [url].  Every other operation hands the HTTP layer exactly
    one call, below the base URL and with the client's auth object, and its
    outcome is that layer's outcome as it is, the response returned or the
    exception raised; nothing but the log of calls changes. *)
Theorem operation_outcome
    (self : ref) (op : operation) (w : world) (o : CarmdApi_obj) :
  objects w !! self = Some o →
  (lacks_identifier op = true →
   invoke self op w = (Raise (TypeError CarmdApi.missing_error), w)) ∧
  (names_url op = true →
   invoke self op w = (Raise (TypeError url_error), w)) ∧
  (reaches_http op = true →
   ∃ call,
     invoke self op w =
       (remote w (sent w) call,
        mkWorld (environ w) (objects w) (sent w ++ [call]) (remote w)) ∧
     (∃ service, get_url call = CMD_BASE_URL +:+ service) ∧
     get_kwargs call !! "auth" = Some (OAuth (_auth o))).
Proof.
  intros Ho. split_and!.
  - intros Hop. by rewrite invoke_lacking.
  - intros Hurl. destruct op; try discriminate. simpl in *.
    apply bool_decide_eq_true in Hurl. by eapply get_url_clash.
  - unfold reaches_http. intros [Hop Hurl]%andb_true_iff.
    apply negb_true_iff in Hop, Hurl.
    destruct (invoke_as_get self op Hop)
      as (service & params & kwargs & -> & Hnames & _).
    rewrite Hnames in Hurl. apply bool_decide_eq_false in Hurl.
    assert (Hnone : kwargs !! "url" = None).
    { destruct (kwargs !! "url") eqn:Hk; [|done]. destruct Hurl. by eexists. }
    eexists. split; [by apply get_run|]. simpl. split; [by eexists|].
    apply lookup_insert_eq.
Qed.

Lemma operation_outcome_witness :
  objects demo_world !! 1%positive = Some demo_client ∧
  invoke 1%positive (OpPredictedRepair VNone VNone VNone) demo_world
    = (Raise (TypeError CarmdApi.missing_error), demo_world) ∧
  invoke 1%positive
      (OpGet "decode" None {[ "url" := OVal (VStr "http://example.org/") ]})
      demo_world
    = (Raise (TypeError url_error), demo_world) ∧
  ∃ call,
    (invoke 1%positive (OpWarranty (VInt 77)) demo_world).1
      = remote demo_world (sent demo_world) call ∧
    get_kwargs call !! "auth" = Some (OAuth (_auth demo_client)).
Proof.
  split; [reflexivity|].
  split_and!.
  - apply (operation_outcome 1%positive (OpPredictedRepair VNone VNone VNone)
             demo_world demo_client eq_refl). reflexivity.
  - apply (operation_outcome 1%positive
             (OpGet "decode" None {[ "url" := OVal (VStr "http://example.org/") ]})
             demo_world demo_client eq_refl). reflexivity.
  - destruct (operation_outcome 1%positive (OpWarranty (VInt 77))
                demo_world demo_client eq_refl) as (_ & _ & Hok).
    destruct (Hok eq_refl) as (call & Hrun & _ & Hauth).
    exists call. rewrite Hrun. split; [reflexivity | exact Hauth].
Defined.

(** X5. The per-endpoint methods pass no option of their own: the call any
    of them makes has [auth] as its only keyword option, so no timeout or
    other setting ever reaches the HTTP layer through them. *)
Theorem endpoint_methods_pass_only_auth
    (self : ref) (op : operation) (w : world) (o : CarmdApi_obj) :
  objects w !! self = Some o →
  is_generic op = false →
  Forall (λ c, get_kwargs c = {[ "auth" := OAuth (_auth o) ]})
         (issued (invoke self op) w).
Proof.
  intros Ho Hgen. destruct (lacks_identifier op) eqn:Hop.
  - rewrite invoke_lacking by done.
    rewrite (issued_none _ w (Raise (TypeError CarmdApi.missing_error)))
      by reflexivity.
    constructor.
  - destruct (invoke_as_get self op Hop)
      as (service & params & kwargs & -> & _ & Hkw).
    rewrite (Hkw Hgen).
    erewrite issued_one; [|by apply get_run_plain|reflexivity].
    constructor; [|constructor]. reflexivity.
Qed.

Lemma endpoint_methods_pass_only_auth_witness :
  objects demo_world !! 1%positive = Some demo_client ∧
  is_generic (OpYears (VStr "Toyota")) = false ∧
  Forall (λ c, get_kwargs c = {[ "auth" := OAuth (_auth demo_client) ]})
         (issued (invoke 1%positive (OpYears (VStr "Toyota"))) demo_world).
Proof.
  split; [reflexivity|]. split; [reflexivity|].
  apply (endpoint_methods_pass_only_auth 1%positive (OpYears (VStr "Toyota"))
           demo_world demo_client); reflexivity.
Defined.

(** X6. Over any sequence of operations on an initialised client, the
    number of calls the HTTP layer receives is the number of operations
    that reach it, that is, all but the predicted repairs without
    identifier and the generic [get]s given an option named [url]: each of
    the others makes one call, whether the layer answers or raises, so
    nothing is retried and nothing is skipped.  The environment and the
    client objects are left as they were. *)
Theorem run_all_one_call_each
    (self : ref) (ops : list operation) (w : world) (o : CarmdApi_obj) :
  objects w !! self = Some o →
  environ (run_all self ops w) = environ w ∧
  objects (run_all self ops w) = objects w ∧
  ∃ calls,
    sent (run_all self ops w) = sent w ++ calls ∧
    length calls = length (List.filter reaches_http ops).
Proof.
  revert w. induction ops as [|op ops IH]; intros w Ho; simpl.
  - split_and!; try reflexivity. exists []. by rewrite app_nil_r.
  - destruct (operation_outcome_cases self op w o Ho)
      as [(Hreach & Hw) | (Hreach & call & Hw)]; rewrite Hreach, Hw.
    + by apply IH.
    + destruct (IH (mkWorld (environ w) (objects w) (sent w ++ [call]) (remote w)) Ho)
        as (Henv & Hobj & calls & Hsent & Hlen).
      split_and!; [exact Henv | exact Hobj |].
      exists (call :: calls). rewrite Hsent. simpl.
      split; [by rewrite <- app_assoc | by rewrite Hlen].
Qed.

Lemma run_all_one_call_each_witness :
  let ops := [OpMakes; OpPredictedRepair VNone VNone VNone;
              OpGet "decode" None {[ "url" := OVal (VStr "http://example.org/") ]};
              OpSafetyRecall (VInt 77)] in
  objects demo_world !! 1%positive = Some demo_client ∧
  ∃ calls,
    sent (run_all 1%positive ops demo_world) = sent demo_world ++ calls ∧
    length calls = 2%nat.
Proof.
  intros ops. split; [reflexivity|].
  destruct (run_all_one_call_each 1%positive ops demo_world demo_client eq_refl)
    as (_ & _ & calls & Hsent & Hlen).
  exists calls. split; [exact Hsent | exact Hlen].
Defined.

(** ** Next maintenance *)

(** X1. [get_maintenance] makes one call to [maint/next] with the VIN passed
    as given and the mileage as [str(mileage)].  An integer mileage is sent
    as its decimal numeral, so giving the numeral as a string is the same
    request, and two integer mileages give the same request only when they
    are equal. *)
Theorem get_maintenance_mileage_coerced
    (self : ref) (w : world) (o : CarmdApi_obj) (vin mileage : pyval) :
  objects w !! self = Some o →
  let params : gmap string pyval :=
    {[ "vin" := vin; "mileage" := VStr (py_str mileage) ]} in
  issued (CarmdApi.get_maintenance self vin mileage) w =
    [mkGet (CMD_BASE_URL +:+ "maint/next") (Some params)
           {[ "auth" := OAuth (_auth o) ]}] ∧
  params !! "vin" = Some vin ∧
  dom params = {[ "vin"; "mileage" ]} ∧
  (∀ n : Z, mileage = VInt n →
     params !! "mileage" = Some (VStr (pretty n)) ∧
     CarmdApi.get_maintenance self vin (VStr (pretty n))
       = CarmdApi.get_maintenance self vin mileage) ∧
  (∀ n m : Z,
     issued (CarmdApi.get_maintenance self vin (VInt n)) w
       = issued (CarmdApi.get_maintenance self vin (VInt m)) w →
     n = m).
Proof.
  intros Ho params.
  assert (Hissued : ∀ x,
            issued (CarmdApi.get_maintenance self vin x) w =
              [mkGet (CMD_BASE_URL +:+ "maint/next")
                     (Some {[ "vin" := vin; "mileage" := VStr (py_str x) ]})
                     {[ "auth" := OAuth (_auth o) ]}]).
  { intros x. eapply issued_one; [by apply get_run|]. simpl.
    by rewrite insert_empty. }
  assert (Hmileage : ∀ x : pyval,
            ({[ "vin" := vin; "mileage" := x ]} : gmap string pyval)
              !! "mileage" = Some x).
  { intros x. rewrite lookup_insert_ne by done. apply lookup_singleton_eq. }
  split_and!.
  - apply Hissued.
  - apply lookup_insert_eq.
  - subst params. rewrite dom_insert_L, dom_singleton_L. reflexivity.
  - intros n ->. split; [apply Hmileage | reflexivity].
  - intros n m Heq. rewrite !Hissued in Heq.
    apply (f_equal (λ cs, match cs with
                          | [c] => get_params c
                          | _ => None
                          end)) in Heq.
    cbv beta iota in Heq. cbn [get_params] in Heq.
    apply (inj Some) in Heq.
    assert (Hlook : Some (VStr (py_str (VInt n))) = Some (VStr (py_str (VInt m)))).
    { rewrite <- (Hmileage (VStr (py_str (VInt n)))),
              <- (Hmileage (VStr (py_str (VInt m)))).
      by rewrite Heq. }
    injection Hlook as Hlook. by apply (inj pretty).
Qed.

Lemma get_maintenance_mileage_coerced_witness :
  objects demo_world !! 1%positive = Some demo_client ∧
  issued (CarmdApi.get_maintenance 1%positive (VStr "5XYKTDA26DG338929")
            (VInt 25350)) demo_world =
    [mkGet "http://api2.carmd.com/v2.0/maint/next"
           (Some {[ "vin" := VStr "5XYKTDA26DG338929";
                    "mileage" := VStr "25350" ]})
           {[ "auth" := OAuth (_auth demo_client) ]}].
Proof.
  split; [reflexivity|].
  apply (get_maintenance_mileage_coerced 1%positive demo_world demo_client
           (VStr "5XYKTDA26DG338929") (VInt 25350) eq_refl).
Defined.

(** ** Construction without arguments *)

(** X7. [CarmdApi()] with neither argument succeeds exactly when both
    [CARMD_KEY] and [CARMD_SECRET] were set to non-empty values in the
    environment the module was imported under; the client then holds those
    two values as strings.  Otherwise it raises [KeyError] and nothing
    changes. *)
Theorem init_from_environment (w0 w : world) :
  ∃ G : globals,
    import_module w0 = (Ok G, w0) ∧
    ((∃ self w', CarmdApi.__init__ G VNone VNone w = (Ok self, w'))
     ↔ (∃ k s, environ w0 !! "CARMD_KEY" = Some k ∧
               environ w0 !! "CARMD_SECRET" = Some s ∧
               k ≠ EmptyString ∧ s ≠ EmptyString)) ∧
    (∀ self w', CarmdApi.__init__ G VNone VNone w = (Ok self, w') →
       ∃ k s, environ w0 !! "CARMD_KEY" = Some k ∧
              environ w0 !! "CARMD_SECRET" = Some s ∧
              objects w !! self = None ∧
              w' = mkWorld (environ w)
                     (<[self := mkApi (VStr k) (VStr s)
                                  (CarmdAuth.mk (VStr k) (VStr s))]> (objects w))
                     (sent w) (remote w)) ∧
    (¬ (∃ k s, environ w0 !! "CARMD_KEY" = Some k ∧
               environ w0 !! "CARMD_SECRET" = Some s ∧
               k ≠ EmptyString ∧ s ≠ EmptyString) →
     CarmdApi.__init__ G VNone VNone w
       = (Raise (KeyError CarmdApi.init_error), w)).
Proof.
  eexists. split; [reflexivity|].
  rewrite init_run. cbv zeta. cbn [is_None CMD_DEFAULT_KEY CMD_DEFAULT_SECRET].
  destruct (environ w0 !! "CARMD_KEY") as [k|] eqn:Hk;
    destruct (environ w0 !! "CARMD_SECRET") as [s|] eqn:Hs; cbn [from_option].
  2-4: (split_and!;
        [ split; [ intros (self & w' & Hinit); simpl in Hinit;
                   rewrite ?andb_false_r in Hinit; discriminate Hinit
                 | intros (k' & s' & Hk' & Hs' & _); discriminate ]
        | intros self w' Hinit; simpl in Hinit;
          rewrite ?andb_false_r in Hinit; discriminate Hinit
        | intros _; simpl; by rewrite ?andb_false_r ]).
  destruct (truthy (VStr k)) eqn:Htk; destruct (truthy (VStr s)) eqn:Hts;
    cbn [andb].
  2-4: (split_and!;
        [ split; [ intros (self & w' & Hinit); discriminate Hinit
                 | intros (k' & s' & Hk' & Hs' & Hnk & Hns);
                   injection Hk' as <-; injection Hs' as <-;
                   apply truthy_str in Hnk, Hns; congruence ]
        | intros self w' Hinit; discriminate Hinit
        | reflexivity ]).
  apply truthy_str in Htk, Hts.
  destruct (new_object_run
              (mkApi (VStr k) (VStr s) (CarmdAuth.mk (VStr k) (VStr s))) w)
    as (self & Hfresh & Hnew).
  split_and!.
  - split; [intros _; by exists k, s | intros _; rewrite Hnew; by eexists _, _].
  - intros self' w' Hinit. rewrite Hnew in Hinit. injection Hinit as <- <-.
    by exists k, s.
  - intros Hnot. destruct Hnot. by exists k, s.
Qed.

(** ** Several clients *)

Lemma issued_of_effect {A} (c : M A) (w : world) (calls : list http_get) :
  (c w).2 = mkWorld (environ w) (objects w) (sent w ++ calls) (remote w) →
  issued c w = calls.
Proof.
  intros Hw. unfold issued. rewrite Hw. simpl. by rewrite drop_app_length.
Qed.

(** X8. Constructing a client touches no client made before: the new client
    is a different object, every earlier one keeps its key, secret and auth,
    and the calls an earlier client makes afterwards still carry its own
    auth object, not the newcomer's. *)
Theorem construction_keeps_other_clients
    (G : globals) (key secret : pyval) (w w' : world) (self : ref) :
  CarmdApi.__init__ G key secret w = (Ok self, w') →
  objects w !! self = None ∧
  ∀ (other : ref) (o : CarmdApi_obj),
    objects w !! other = Some o →
    other ≠ self ∧
    objects w' !! other = Some o ∧
    ∀ op : operation,
      Forall (λ c, get_kwargs c !! "auth" = Some (OAuth (_auth o)))
             (issued (invoke other op) w').
Proof.
  intros Hinit. rewrite init_run in Hinit. cbv zeta in Hinit.
  destruct (truthy _ && truthy _); [|discriminate Hinit].
  destruct (new_object_run (mkApi (if is_None key then CMD_DEFAULT_KEY G else key)
                                  (if is_None secret then CMD_DEFAULT_SECRET G
                                   else secret)
                                  (CarmdAuth.mk
                                     (if is_None key then CMD_DEFAULT_KEY G else key)
                                     (if is_None secret then CMD_DEFAULT_SECRET G
                                      else secret))) w)
    as (l & Hfresh & Hnew).
  rewrite Hnew in Hinit. injection Hinit as <- <-.
  split; [exact Hfresh|].
  intros other o Ho.
  assert (Hne : other ≠ l) by congruence.
  split; [exact Hne|].
  match goal with
  | |- objects ?W !! _ = _ ∧ _ =>
      assert (Ho' : objects W !! other = Some o)
        by (simpl; by rewrite lookup_insert_ne)
  end.
  split; [exact Ho'|].
  intros op.
  destruct (invoke_effect other op _ o Ho') as (calls & Hw & Hall).
  by rewrite (issued_of_effect _ _ calls Hw).
Qed.

Lemma construction_keeps_other_clients_witness :
  let G := mkGlobals VNone VNone in
  let w' := (CarmdApi.__init__ G (VStr "Basic xyz=") (VStr "2222-33") demo_world).2 in
  CarmdApi.__init__ G (VStr "Basic xyz=") (VStr "2222-33") demo_world
    = (Ok 2%positive, w') ∧
  objects demo_world !! 1%positive = Some demo_client ∧
  objects w' !! 1%positive = Some demo_client ∧
  Forall (λ c, get_kwargs c !! "auth" = Some (OAuth (_auth demo_client)))
         (issued (invoke 1%positive OpMakes) w').
Proof.
  intros G w'. split; [reflexivity|]. split; [reflexivity|].
  destruct (construction_keeps_other_clients G (VStr "Basic xyz=") (VStr "2222-33")
              demo_world w' 2%positive eq_refl) as [_ Hkeep].
  destruct (Hkeep 1%positive demo_client eq_refl) as (_ & Hobj & Hcalls).
  split; [exact Hobj | exact (Hcalls OpMakes)].
Defined.
